(** * xerr: fail-fast step runner with observers (hkloudou/x)

    A shallow embedding of the Go package [xerr] (the step runner [run], the
    bound-runner constructor [NewGlobalError], [LoggerMiddleware] and
    [getTraceID]) and of its predecessor [internal/xerr] ([Run], [With],
    [WithGlobalError]), with the properties the specification states about
    them.

    Go code is effectful: [run] reads and writes an error variable through a
    pointer and calls caller-supplied closures.  The embedding threads an
    explicit [World] (the error variables, standard output, and the caller's
    own state) through a small monad that can also panic and that records
    which closures were called, in which order and with which arguments. *)

From stdpp Require Import base option list strings gmap.

(** ** Go values *)

(** The empty interface [any] ([interface{}]): a dynamic type with a value of
    that type, or nil.  Strings and integers are the dynamic types the
    package and its tests store in a context; [anyOther] stands for a value
    of any other dynamic type. *)
Inductive any : Type :=
| anyNil
| anyString (s : string)
| anyInt (n : Z)
| anyOther (tag : N).

Global Instance any_eq_dec : EqDecision any.
Proof. solve_decision. Defined.

(** The type assertion [v.(string)] in its two-result form. *)
Definition assert_string (v : any) : string * bool :=
  match v with
  | anyString s => (s, true)
  | _ => ("", false)
  end.

(** [context.Context], as far as the package uses it: [context.Background()]
    and [context.WithValue(parent, key, val)].  [Value] is the lookup of the
    standard library: the innermost binding whose key equals [key] (interface
    equality), nil when there is none. *)
Inductive Context : Type :=
| Background
| WithValue (parent : Context) (key val : any).

Global Instance Context_eq_dec : EqDecision Context.
Proof. solve_decision. Defined.

Fixpoint Value (ctx : Context) (key : any) : any :=
  match ctx with
  | Background => anyNil
  | WithValue parent k v => if decide (k = key) then v else Value parent key
  end.

(** [binds ctx key]: some [WithValue] of the chain carries [key]. *)
Fixpoint binds (ctx : Context) (key : any) : bool :=
  match ctx with
  | Background => false
  | WithValue parent k _ => bool_decide (k = key) || binds parent key
  end.

(** A non-nil value of the interface [error].  [errors.New] allocates a new
    object at every call, so two errors with the same text are different
    values: [err_obj] is the identity of the object, [err_Error] the text
    its method [Error()] returns. *)
Record errval : Type := ErrVal { err_obj : positive; err_Error : string }.

Global Instance errval_eq_dec : EqDecision errval.
Proof. solve_decision. Defined.

(** A value of type [error]: nil is [None]. *)
Abbreviation error := (option errval).
Abbreviation nil_error := (@None errval).


(** What the verb [%v] prints for a value of type [error]. *)
Definition fmt_v (e : error) : string :=
  match e with
  | None => "<nil>"
  | Some x => err_Error x
  end.

(** [strings.Contains(s, substr)]. *)
Fixpoint Contains (s substr : string) : bool :=
  String.prefix substr s ||
  match s with
  | EmptyString => false
  | String _ rest => Contains rest substr
  end.

Definition newline : string := String (Ascii.ascii_of_nat 10) EmptyString.

(** A pointer of type [*error]: nil, or the address of an error variable. *)
Abbreviation loc := positive.
Abbreviation ptr := (option positive).

(** ** Events

    The calls and writes a step runner performs, recorded in the order in
    which they happen.  The record is ghost state: it is how the theorems
    below speak of "invoked exactly once" and "in this order".
    - [EvFn ctx]: the operation was called as [fn(ctx)];
    - [EvMid i ctx e tip cur]: the observer at index [i] of [mids] was called
      as [mid(ctx, e, tip)] while the error variable read [cur];
    - [EvMiddleware i ctx ok tip e cur]: the same for the four-argument
      observers of [internal/xerr], called as [mid(ctx, ok, tip, e)];
    - [EvAssign l x]: the runner executed [*err = x] for the variable at
      [l]. *)
Inductive Event : Type :=
| EvFn (ctx : Context)
| EvMid (i : nat) (ctx : Context) (e : error) (tip : string) (cur : error)
| EvMiddleware (i : nat) (ctx : Context) (ok : bool) (tip : string)
    (e : error) (cur : error)
| EvAssign (l : loc) (x : errval).

Global Instance Event_eq_dec : EqDecision Event.
Proof. solve_decision. Defined.

Definition is_fn (ev : Event) : bool :=
  match ev with EvFn _ => true | _ => false end.

(** How many times a trace calls an operation. *)
Definition fn_calls (t : list Event) : nat := length (List.filter is_fn t).


(** Forget the [ok] flag of a four-argument observer call. *)
Definition forget_ok (ev : Event) : Event :=
  match ev with
  | EvMiddleware i ctx _ tip e cur => EvMid i ctx e tip cur
  | _ => ev
  end.

(** ** The world and the monad of Go computations *)

Section World.
Context {U : Type}.

(** Everything a closure can read or change: the error variables a
    [*error] can point to, what has been written to standard output, and
    the caller's own variables (counters, logs, ...), of a type [U] the
    runner knows nothing about. *)
Record World : Type := mkWorld {
  mem : gmap positive error;
  stdout : string;
  caller : U;
}.

(** Reading and writing an error variable.  A variable declared as
    [var err error] starts as nil, so an address the map does not hold
    reads nil. *)
Definition load (l : loc) (w : World) : error := default None (mem w !! l).

Definition store (l : loc) (e : error) (w : World) : World :=
  {| mem := <[l := e]> (mem w); stdout := stdout w; caller := caller w |}.

(** [fmt.Printf]: appends to standard output. *)
Definition Printf (s : string) (w : World) : World :=
  {| mem := mem w; stdout := stdout w +:+ s; caller := caller w |}.

(** A computation runs in a world and yields the events it performed and
    either a result with the new world, or [None] when it did not return
    normally (it panicked). *)
Definition M (A : Type) : Type := World → list Event * option (A * World).

Definition ret {A} (a : A) : M A := λ w, ([], Some (a, w)).

Definition bind {A B} (m : M A) (k : A → M B) : M B :=
  λ w, match m w with
       | (t, None) => (t, None)
       | (t, Some (a, w')) =>
           let '(t', r) := k a w' in (t ++ t', r)
       end.

Definition panic {A} : M A := λ _, ([], None).

(** [*p] as an expression: dereferencing nil panics. *)
Definition deref (p : ptr) : M error :=
  match p with
  | None => panic
  | Some l => λ w, ([], Some (load l w, w))
  end.

(** [*p = e]. *)
Definition assign (p : ptr) (x : errval) : M unit :=
  match p with
  | None => panic
  | Some l => λ w, ([EvAssign l x], Some (tt, store l (Some x) w))
  end.

(** The events performed and the outcome of a computation. *)
Definition trace {A} (r : list Event * option (A * World)) : list Event := fst r.

Definition outcome {A} (r : list Event * option (A * World)) : option World :=
  snd <$> snd r.
End World.

Arguments World : clear implicits.
Arguments M : clear implicits.

Declare Scope go_scope.
Notation "x ← m ; k" := (bind m (λ x, k))
  (at level 20, m at level 100, k at level 200, only parsing) : go_scope.
Notation "m ;; k" := (bind m (λ _, k))
  (at level 100, k at level 200, right associativity, only parsing) : go_scope.
Delimit Scope go_scope with go.

(** The body of a Go closure returning an [A]: from the world it is called
    in, the result and the world it leaves, or [None] when the call does not
    return normally.  Calling a nil func value panics: it is the body that
    is [None] everywhere. *)
Definition func (U A : Type) : Type := World U → option (A * World U).

(** A closure with no result. *)
Definition proc (U : Type) : Type := World U → option (World U).

(** What [*p] reads at this point; ghost, used by the events only. *)
Definition peek {U} (p : ptr) (w : World U) : error :=
  from_option (λ l, load l w) None p.

(** ** Package xerr (the file of the step runner [run]) *)

Module Xerr.
Section Xerr.
Context {U : Type}.
Local Open Scope go_scope.

(** [type middleware func(ctx context.Context, err error, tip string)] *)
Definition middleware : Type := Context → error → string → proc U.

(** The operation type [func(context.Context) error]. *)
Definition operation : Type := Context → func U error.

(** [fn(ctx)] *)
Definition call_fn (fn : operation) (ctx : Context) : M U error :=
  λ w, ([EvFn ctx], fn ctx w).

(** [mid(ctx, e, tip)], for the observer at index [i].  Go passes [e] by
    value: the observer gets a copy of the interface value in its own
    parameter, and nothing but the world comes back. *)
Definition call_mid (err : ptr) (i : nat) (mid : middleware)
    (ctx : Context) (e : error) (tip : string) : M U unit :=
  λ w, ([EvMid i ctx e tip (peek err w)], (λ w', (tt, w')) <$> mid ctx e tip w).

(** [for _, mid := range mids { mid(ctx, e, tip) }], from index [i] on. *)
Fixpoint range_mids (err : ptr) (i : nat) (ctx : Context) (e : error)
    (tip : string) (mids : list middleware) : M U unit :=
  match mids with
  | [] => ret tt
  | mid :: rest =>
      call_mid err i mid ctx e tip;;
      range_mids err (S i) ctx e tip rest
  end.

(** [func run(ctx, err *error, tip, fn, mids ...middleware)] *)
Definition run (ctx : Context) (err : ptr) (tip : string) (fn : operation)
    (mids : list middleware) : M U unit :=
  cur ← deref err;
  if bool_decide (cur ≠ None) then
    ret tt (* short-circuit *)
  else
    e ← call_fn fn ctx;
    range_mids err 0 ctx e tip mids;;
    match e with
    | Some x => assign err x
    | None => ret tt
    end.



(** [func getTraceID(ctx context.Context) string] *)
Definition getTraceID (ctx : Context) : string :=
  let '(id, ok) := assert_string (Value ctx (anyString "trace_id")) in
  if ok then id else "unknown".

(** [func LoggerMiddleware(ctx, err error, tip string)] *)
Definition LoggerMiddleware : middleware :=
  λ ctx err tip w,
    if bool_decide (err = None) then
      Some (Printf ("✅[" +:+ getTraceID ctx +:+ "] " +:+ tip +:+ newline) w)
    else
      Some (Printf ("❌[" +:+ getTraceID ctx +:+ "] " +:+ tip +:+ ": "
                    +:+ fmt_v err +:+ newline) w).

(** *** Callers of [run]

    What the theorems assume of the closures a caller supplies, and the
    straight-line callers [run(...); run(...); ...] of the tests. *)

(** The observers of [mids], called one after the other with
    [(ctx, e, tip)] from world [w], all return normally and leave [w']. *)
Inductive observers_return (ctx : Context) (e : error) (tip : string)
    : list middleware → World U → World U → Prop :=
| observers_return_nil w :
    observers_return ctx e tip [] w w
| observers_return_cons mid rest w w1 w2 :
    mid ctx e tip w = Some w1 →
    observers_return ctx e tip rest w1 w2 →
    observers_return ctx e tip (mid :: rest) w w2.

(** Exclusive access to the error variable at [l]: a closure that returns
    leaves that variable as it found it.  (A Go closure can capture the
    caller's [err] and assign to it; the specification's resource model
    rules that out, and the theorems name the assumption where they need
    it.) *)
Definition fn_keeps (l : loc) (fn : operation) : Prop :=
  ∀ ctx w e w', fn ctx w = Some (e, w') → load l w' = load l w.

Definition mid_keeps (l : loc) (mid : middleware) : Prop :=
  ∀ ctx e tip w w', mid ctx e tip w = Some w' → load l w' = load l w.

(** One call [run(ctx, &err, tip, fn, mids...)] of a sequence. *)
Record Step : Type := mkStep {
  step_ctx : Context;
  step_tip : string;
  step_fn : operation;
  step_mids : list middleware;
}.

Definition step_keeps (l : loc) (s : Step) : Prop :=
  fn_keeps l (step_fn s) ∧ Forall (mid_keeps l) (step_mids s).

(** The calls of [steps] in order, all on the error variable [err].  The
    result lists the events of each call separately: the i-th list is what
    the i-th call did. *)
Fixpoint run_seq (err : ptr) (steps : list Step) (w : World U)
    : list (list Event) * option (World U) :=
  match steps with
  | [] => ([], Some w)
  | s :: rest =>
      match run (step_ctx s) err (step_tip s) (step_fn s) (step_mids s) w with
      | (t, None) => ([t], None)
      | (t, Some (_, w')) =>
          let '(ts, r) := run_seq err rest w' in (t :: ts, r)
      end
  end.

(** Every operation of [steps], run in order from [w], returns nil, its
    observers return, and the last one leaves [w']. *)
Inductive steps_succeed : list Step → World U → World U → Prop :=
| steps_succeed_nil w :
    steps_succeed [] w w
| steps_succeed_cons s rest w w1 w2 w3 :
    step_fn s (step_ctx s) w = Some (None, w1) →
    observers_return (step_ctx s) None (step_tip s) (step_mids s) w1 w2 →
    steps_succeed rest w2 w3 →
    steps_succeed (s :: rest) w w3.

(** The events of the observer calls of one [run], given what the error
    variable read at each of them. *)
Definition mid_events (i : nat) (ctx : Context) (e : error) (tip : string)
    (curs : list error) : list Event :=
  imap (λ j cur, EvMid (i + j) ctx e tip cur) curs.

(** The event of the final [if e != nil { *err = e }]. *)
Definition assign_events (l : loc) (e : error) : list Event :=
  match e with
  | Some x => [EvAssign l x]
  | None => []
  end.

(** The events of step [s] when it is executed on the variable at [l], its
    operation returns [e], and the variable reads [curs] at the observer
    calls. *)
Definition executed (l : loc) (s : Step) (e : error) (curs : list error)
    : list Event :=
  EvFn (step_ctx s) :: mid_events 0 (step_ctx s) e (step_tip s) curs
    ++ assign_events l e.

(** The world [run] leaves when the operation returned [e] and the
    observers left [w2]. *)
Definition recorded (l : loc) (e : error) (w2 : World U) : World U :=
  match e with
  | Some x => store l (Some x) w2
  | None => w2
  end.
End Xerr.
End Xerr.

(** ** Package internal/xerr (the earlier API) *)

Module Internal.
Section Internal.
Context {U : Type}.
Local Open Scope go_scope.

(** [type Middleware func(ctx context.Context, ok bool, tip string, err error)] *)
Definition Middleware : Type := Context → bool → string → error → proc U.

Definition operation : Type := Context → func U error.

Definition call_fn (fn : operation) (ctx : Context) : M U error :=
  λ w, ([EvFn ctx], fn ctx w).

(** [mid(ctx, e == nil, tip, e)], for the observer at index [i]. *)
Definition call_mid (err : ptr) (i : nat) (mid : Middleware)
    (ctx : Context) (ok : bool) (tip : string) (e : error) : M U unit :=
  λ w, ([EvMiddleware i ctx ok tip e (peek err w)],
        (λ w', (tt, w')) <$> mid ctx ok tip e w).

Fixpoint range_mids (err : ptr) (i : nat) (ctx : Context) (e : error)
    (tip : string) (mids : list Middleware) : M U unit :=
  match mids with
  | [] => ret tt
  | mid :: rest =>
      call_mid err i mid ctx (bool_decide (e = None)) tip e;;
      range_mids err (S i) ctx e tip rest
  end.

(** [func Run(ctx, err *error, tip, fn, mids ...Middleware)] *)
Definition Run (ctx : Context) (err : ptr) (tip : string) (fn : operation)
    (mids : list Middleware) : M U unit :=
  cur ← deref err;
  if bool_decide (cur ≠ None) then
    ret tt (* short-circuit *)
  else
    e ← call_fn fn ctx;
    range_mids err 0 ctx e tip mids;;
    match e with
    | Some x => assign err x
    | None => ret tt
    end.



Definition getTraceID (ctx : Context) : string :=
  let '(id, ok) := assert_string (Value ctx (anyString "trace_id")) in
  if ok then id else "unknown".

(** [func LoggerMiddleware(ctx, ok bool, tip string, err error)] *)
Definition LoggerMiddleware : Middleware :=
  λ ctx ok tip err w,
    if ok then
      Some (Printf ("✅[" +:+ getTraceID ctx +:+ "] " +:+ tip +:+ newline) w)
    else
      Some (Printf ("❌[" +:+ getTraceID ctx +:+ "] " +:+ tip +:+ ": "
                    +:+ fmt_v err +:+ newline) w).

(** [func MetricsMiddleware(ctx, ok, tip, err)]: the body is a comment. *)
Definition MetricsMiddleware : Middleware := λ _ _ _ _ w, Some w.
(** The observers of [mids], called one after the other with
    [(ctx, e == nil, tip, e)] from world [w], all return normally and
    leave [w']. *)
Inductive observers_return (ctx : Context) (e : error) (tip : string)
    : list Middleware → World U → World U → Prop :=
| observers_return_nil w :
    observers_return ctx e tip [] w w
| observers_return_cons mid rest w w1 w2 :
    mid ctx (bool_decide (e = None)) tip e w = Some w1 →
    observers_return ctx e tip rest w1 w2 →
    observers_return ctx e tip (mid :: rest) w w2.
End Internal.
End Internal.

(** ** The two observer signatures *)

(** A three-argument observer [m] and a four-argument observer [m'] do the
    same when [m'], given the flag [ok = (e == nil)] that [Run] gives it,
    does what [m] does. *)
Definition corresponds {U} (m : Xerr.middleware (U:=U))
    (m' : Internal.Middleware (U:=U)) : Prop :=
  ∀ ctx e tip w, m' ctx (bool_decide (e = None)) tip e w = m ctx e tip w.

(** The three-argument observer that a four-argument one is under [Run]. *)
Definition simplify {U} (m' : Internal.Middleware (U:=U)) : Xerr.middleware (U:=U) :=
  λ ctx e tip, m' ctx (bool_decide (e = None)) tip e.

(** The flag of every four-argument observer call of a trace says whether
    the error it came with is nil. *)
Definition ok_is_nil_check (ev : Event) : Prop :=
  match ev with
  | EvMiddleware _ _ ok _ e _ => ok = bool_decide (e = None)
  | _ => True
  end.

(** ** The error slot across calls *)

(** One returning call of a step runner of either package (directly, or
    through a closure built by [NewGlobalError], [With] or
    [WithGlobalError]) on the error variable at [l] takes world [w] to
    [w']. *)
Inductive slot_step {U} (l : loc) : World U → World U → Prop :=
| slot_step_run ctx tip fn mids w w' :
    outcome (Xerr.run ctx (Some l) tip fn mids w) = Some w' →
    slot_step l w w'
| slot_step_Run ctx tip fn mids w w' :
    outcome (Internal.Run ctx (Some l) tip fn mids w) = Some w' →
    slot_step l w w'.

(** ** Fixtures of the tests *)
Module Fixtures.
Import Xerr.

(** The tests' caller state: a log the observers append to. *)
Definition w0 : World (list string) := mkWorld ∅ "" [].

(** [&err] *)
Definition err_p : loc := 1%positive.

Definition ctx_req : Context :=
  WithValue Background (anyString "trace_id") (anyString "request-123").

(** [func(ctx context.Context) error { return nil }] *)
Definition ok_fn : operation (U:=list string) := λ _ w, Some (None, w).

(** [errors.New("processing failed")] *)
Definition processing_failed : errval := ErrVal 7 "processing failed".

Definition fail_fn : operation (U:=list string) :=
  λ _ w, Some (Some processing_failed, w).

(** The [logger] of TestRun_ComplexScenario. *)
Definition logger : middleware (U:=list string) :=
  λ ctx err tip w,
    Some {| mem := mem w; stdout := stdout w;
            caller := caller w ++
              [if bool_decide (err = None) then "✅ " +:+ tip
               else "❌ " +:+ tip +:+ ": " +:+ fmt_v err] |}.


(** A world in which [err] already holds "first error". *)
Definition first_error : errval := ErrVal 3 "first error".
Definition w_failed : World (list string) := store err_p (Some first_error) w0.
(** The four steps of TestRun_ComplexScenario. *)
Definition validate : Step := mkStep ctx_req "validate input" ok_fn [logger].
Definition fetch : Step := mkStep ctx_req "fetch data" ok_fn [logger].
Definition process : Step := mkStep ctx_req "process data" fail_fn [logger].
Definition save : Step := mkStep ctx_req "save result" ok_fn [logger].

(** An operation outside the exclusive-access discipline: a closure that
    captured the caller's [err], assigns to it and returns nil. *)
Definition sneaky_fn : operation (U:=list string) :=
  λ _ w, Some (None, store err_p (Some first_error) w).
End Fixtures.

(** ** The tests' closures, for any input *)

Module TestClosures.
Import Xerr.

(** An operation that returns [r] and touches nothing, as the function
    literals of the tests do ([return nil], [return errors.New(...)]). *)
Definition returning {U} (r : error) : operation (U:=U) := λ _ w, Some (r, w).

(** The entry [logger] of TestRun_ComplexScenario appends to the log. *)
Definition log_entry (tip : string) (e : error) : string :=
  if bool_decide (e = None) then "✅ " +:+ tip
  else "❌ " +:+ tip +:+ ": " +:+ fmt_v e.

(** The call [run(ctx, &err, tip, func(...) error { return r }, logger)]. *)
Definition logged_step (ctx : Context) (p : string * error) : Step :=
  mkStep ctx p.1 (returning p.2) [Fixtures.logger].

(** What the log of a fail-fast workflow should hold: an entry for every
    step up to and including the first one that fails. *)
Fixpoint expected_log (steps : list (string * error)) : list string :=
  match steps with
  | [] => []
  | (tip, None) :: rest => log_entry tip None :: expected_log rest
  | (tip, Some x) :: _ => [log_entry tip (Some x)]
  end.

(** The first non-nil result of the steps, nil when there is none. *)
Fixpoint first_failure (steps : list (string * error)) : error :=
  match steps with
  | [] => None
  | (_, None) :: rest => first_failure rest
  | (_, Some x) :: _ => Some x
  end.

(** [mid1], [mid2], [mid3] of TestRun_MultipleMiddlewares:
    [callOrder = append(callOrder, n)]. *)
Definition order_mid (n : nat) : middleware (U:=list nat) :=
  λ _ _ _ w,
    Some {| mem := mem w; stdout := stdout w; caller := caller w ++ [n] |}.

(** The line [LoggerMiddleware] prints for a result [e]. *)
Definition log_line (ctx : Context) (tip : string) (e : error) : string :=
  if bool_decide (e = None) then
    "✅[" +:+ getTraceID ctx +:+ "] " +:+ tip +:+ newline
  else
    "❌[" +:+ getTraceID ctx +:+ "] " +:+ tip +:+ ": " +:+ fmt_v e +:+ newline.
(** Closures that do not return: a nil func value, or a body that panics. *)
Definition panicking_fn {U} : operation (U:=U) := λ _ _, None.

Definition panicking_mid {U} : middleware (U:=U) := λ _ _ _ _, None.

(** The world of TestRun_MultipleMiddlewares before the call:
    [var callOrder []int]. *)
Definition w_order : World (list nat) := mkWorld ∅ "" [].
End TestClosures.

(** * Properties *)

(** ** The monad and the world *)

Section Basics.
Context {U : Type}.
Implicit Types (w : World U) (l : loc) (e : error).

Lemma load_store_eq l e w : load l (store l e w) = e.
Proof. unfold load, store; simpl. by rewrite lookup_insert_eq. Qed.

Lemma load_store_ne l l' e w : l ≠ l' → load l' (store l e w) = load l' w.
Proof. intros Hne. unfold load, store; simpl. by rewrite lookup_insert_ne. Qed.

Lemma load_Printf l s w : load l (Printf s w) = load l w.
Proof. done. Qed.

Lemma Contains_fmt_v_Some x tip : Contains (fmt_v (Some x)) tip = Contains (err_Error x) tip.
Proof. done. Qed.
End Basics.

(** ** One call of [run] *)

Section RunOnce.
Context {U : Type}.
Implicit Types (w : World U) (l : loc) (e : error) (ctx : Context) (tip : string).
Import Xerr.

(** The short-circuit: nothing is called, nothing changes. *)
Lemma run_skip ctx l tip (fn : operation) (mids : list middleware) w x :
  load l w = Some x →
  run ctx (Some l) tip fn mids w = ([], Some (tt, w)).
Proof.
  intros Hl. unfold run, bind, deref. rewrite Hl.
  rewrite bool_decide_eq_true_2; done.
Qed.

(** A nil [*error] makes the very first statement panic. *)
Lemma run_nil_pointer ctx tip (fn : operation) (mids : list middleware) w :
  run ctx None tip fn mids w = ([], None).
Proof. done. Qed.

(** An operation that does not return: no observer is called and nothing
    is written. *)
Lemma run_fn_panics ctx l tip (fn : operation) (mids : list middleware) w :
  load l w = None →
  fn ctx w = None →
  run ctx (Some l) tip fn mids w = ([EvFn ctx], None).
Proof.
  intros Hl Hfn. unfold run, bind, deref, call_fn. rewrite Hl.
  rewrite bool_decide_eq_false_2 by (intros H; by apply H).
  by rewrite Hfn.
Qed.

Lemma mid_events_cons i ctx e tip cur curs :
  mid_events i ctx e tip (cur :: curs)
  = EvMid i ctx e tip cur :: mid_events (S i) ctx e tip curs.
Proof.
  unfold mid_events. rewrite imap_cons. f_equal.
  - f_equal; lia.
  - apply imap_ext. intros j c _. simpl. f_equal; lia.
Qed.

Lemma mid_events_length i ctx e tip curs :
  length (mid_events i ctx e tip curs) = length curs.
Proof. apply length_imap. Qed.

(** The loop over the observers, when they all return: one call each, in
    the order of [mids], with the operation's result and the label. *)
Lemma range_mids_returns err i ctx e tip (mids : list middleware) w w' :
  observers_return ctx e tip mids w w' →
  ∃ curs,
    length curs = length mids ∧
    range_mids err i ctx e tip mids w = (mid_events i ctx e tip curs, Some (tt, w')) ∧
    (∀ l, err = Some l → Forall (mid_keeps l) mids →
          curs = replicate (length mids) (load l w) ∧ load l w' = load l w).
Proof.
  intros Hret. revert i.
  induction Hret as [w | mid rest w w1 w2 Hmid Hrest IH]; intros i.
  - exists []. split_and!; [done | done |]. intros l _ _. done.
  - destruct (IH (S i)) as (curs & Hlen & Hrun & Hkeep).
    exists (peek err w :: curs). split_and!.
    + simpl. by rewrite Hlen.
    + rewrite mid_events_cons. simpl.
      unfold bind, call_mid. rewrite Hmid. simpl. by rewrite Hrun.
    + intros l -> Hall. apply Forall_cons in Hall as [Hm Hall].
      destruct (Hkeep l eq_refl Hall) as [-> Hw].
      pose proof (Hm _ _ _ _ _ Hmid) as Hw1.
      simpl. rewrite Hw, Hw1. done.
Qed.

(** An executed call: the operation, then the observers, then the write. *)
Lemma run_executes ctx l tip (fn : operation) (mids : list middleware) w e w1 w2 :
  load l w = None →
  fn ctx w = Some (e, w1) →
  observers_return ctx e tip mids w1 w2 →
  ∃ curs,
    length curs = length mids ∧
    run ctx (Some l) tip fn mids w
    = (EvFn ctx :: mid_events 0 ctx e tip curs ++ assign_events l e,
       Some (tt, recorded l e w2)) ∧
    (Forall (mid_keeps l) mids →
       curs = replicate (length mids) (load l w1) ∧ load l w2 = load l w1).
Proof.
  intros Hl Hfn Hret.
  destruct (range_mids_returns (Some l) 0 _ _ _ _ _ _ Hret)
    as (curs & Hlen & Hrun & Hkeep).
  exists curs. split_and!; [done | | by apply Hkeep].
  unfold run, bind, deref, call_fn. rewrite Hl.
  rewrite bool_decide_eq_false_2 by (intros H; by apply H).
  rewrite Hfn, Hrun. destruct e as [x|]; simpl.
  - done.
  - by rewrite !app_nil_r.
Qed.
End RunOnce.

(** ** [Run] of internal/xerr against [run] *)

Section RunVersusRun.
Context {U : Type}.
Implicit Types (w : World U) (l : loc) (e : error) (ctx : Context) (tip : string).

Lemma corresponds_simplify (m' : Internal.Middleware (U:=U)) :
  corresponds (simplify m') m'.
Proof. by intros ctx e tip w. Qed.

Lemma Forall2_corresponds_simplify (mids' : list (Internal.Middleware (U:=U))) :
  Forall2 corresponds (simplify <$> mids') mids'.
Proof.
  induction mids' as [|m' mids' IH]; simpl; constructor;
    [apply corresponds_simplify | done].
Qed.

Lemma range_mids_equiv err i ctx e tip mids mids' w :
  Forall2 corresponds mids mids' →
  Xerr.range_mids err i ctx e tip mids w
  = (forget_ok <$> trace (Internal.range_mids err i ctx e tip mids' w),
     snd (Internal.range_mids err i ctx e tip mids' w)) ∧
  Forall ok_is_nil_check (trace (Internal.range_mids err i ctx e tip mids' w)).
Proof.
  intros Hcorr. revert i w.
  induction Hcorr as [|m m' mids mids' Hm _ IH]; intros i w; simpl.
  - split; [done | constructor].
  - unfold bind, Xerr.call_mid, Internal.call_mid. rewrite Hm.
    destruct (m ctx e tip w) as [w1|]; simpl.
    + destruct (IH (S i) w1) as [Heq Hok]. rewrite Heq.
      destruct (Internal.range_mids err (S i) ctx e tip mids' w1) as [t' r'].
      simpl. split; [done |]. constructor; [done | apply Hok].
    + split; [done |]. repeat constructor.
Qed.

(** The two runners take the same decisions, call the same closures in
    the same order and leave the same world. *)
Lemma Run_run_equiv ctx err tip fn mids mids' w :
  Forall2 corresponds mids mids' →
  Xerr.run ctx err tip fn mids w
  = (forget_ok <$> trace (Internal.Run ctx err tip fn mids' w),
     snd (Internal.Run ctx err tip fn mids' w)) ∧
  Forall ok_is_nil_check (trace (Internal.Run ctx err tip fn mids' w)).
Proof.
  intros Hcorr. unfold Xerr.run, Internal.Run, bind, deref.
  destruct err as [l|]; [| split; [done | constructor]].
  case_bool_decide; [split; [done | constructor] |].
  unfold Xerr.call_fn, Internal.call_fn.
  destruct (fn ctx w) as [[e w1]|]; [| split; [done | repeat constructor]].
  destruct (range_mids_equiv (Some l) 0 ctx e tip mids mids' w1 Hcorr) as [Heq Hok].
  rewrite Heq.
  destruct (Internal.range_mids (Some l) 0 ctx e tip mids' w1) as [t' [[[] w2]|]];
    simpl in *.
  - destruct e as [x|]; simpl.
    + split; [by rewrite fmap_app |].
      constructor; [done |]. apply Forall_app. split; [done | repeat constructor].
    + split; [by rewrite !app_nil_r |].
      constructor; [done |]. by rewrite app_nil_r.
  - split; [done |]. by constructor.
Qed.

Lemma Run_outcome ctx err tip fn (mids' : list (Internal.Middleware (U:=U))) w :
  outcome (Internal.Run ctx err tip fn mids' w)
  = outcome (Xerr.run ctx err tip fn (simplify <$> mids') w).
Proof.
  destruct (Run_run_equiv ctx err tip fn _ mids' w
              (Forall2_corresponds_simplify mids')) as [-> _].
  done.
Qed.

Lemma observers_return_simplify ctx e tip (mids' : list (Internal.Middleware (U:=U))) w w' :
  Internal.observers_return ctx e tip mids' w w' →
  Xerr.observers_return ctx e tip (simplify <$> mids') w w'.
Proof.
  induction 1 as [w | m' rest w w1 w2 Hm _ IH]; simpl.
  - constructor.
  - econstructor; [exact Hm | exact IH].
Qed.

Lemma Run_skip ctx l tip fn (mids' : list (Internal.Middleware (U:=U))) w x :
  load l w = Some x →
  Internal.Run ctx (Some l) tip fn mids' w = ([], Some (tt, w)).
Proof.
  intros Hl. unfold Internal.Run, bind, deref. rewrite Hl.
  rewrite bool_decide_eq_true_2; done.
Qed.
End RunVersusRun.

(** ** Claims about one call *)

Section OneCall.
Context {U : Type}.
Implicit Types (w : World U) (l : loc) (e : error) (ctx : Context) (tip : string).
Import Xerr.

(** C1: a call of [run] (or of [Run]) on an error variable that already
    holds an error returns at once: no event at all is recorded (the
    operation is not called, no observer is called, nothing is written), the
    world is the one the call started in, and the variable still holds the
    same error. *)
Theorem short_circuit_skips_everything ctx l tip fn mids mids' w x :
  load l w = Some x →
  ∃ w',
    run ctx (Some l) tip fn mids w = ([], Some (tt, w')) ∧
    Internal.Run ctx (Some l) tip fn mids' w = ([], Some (tt, w')) ∧
    w' = w ∧ load l w' = Some x.
Proof.
  intros Hl. exists w. split_and!; [| | done | done].
  - by eapply run_skip.
  - by eapply Run_skip.
Qed.

(** C2: a call of [run] on an empty error variable stores the operation's
    error as it is: when the operation returns a non-nil [x], the variable
    afterwards holds [x] itself, and a label occurs in its text exactly when
    it occurs in the text the operation gave it; when the operation returns
    nil, [run] writes nothing (the world is the one the last observer left),
    so the variable stays empty unless a closure wrote to it. *)
Theorem run_records_the_operation_result ctx l tip fn mids w e w1 w2 :
  load l w = None →
  fn ctx w = Some (e, w1) →
  observers_return ctx e tip mids w1 w2 →
  ∃ w',
    outcome (run ctx (Some l) tip fn mids w) = Some w' ∧
    match e with
    | Some x =>
        w' = store l (Some x) w2 ∧
        load l w' = Some x ∧
        ∀ label, Contains (fmt_v (load l w')) label = Contains (err_Error x) label
    | None =>
        w' = w2 ∧
        (fn_keeps l fn → Forall (mid_keeps l) mids → load l w' = None)
    end.
Proof.
  intros Hl Hfn Hret.
  destruct (run_executes ctx l tip fn mids w e w1 w2 Hl Hfn Hret)
    as (curs & _ & Hrun & Hkeep).
  exists (recorded l e w2). split; [by rewrite Hrun |].
  destruct e as [x|]; simpl.
  - split_and!; [done | apply load_store_eq |].
    intros label. by rewrite load_store_eq.
  - split; [done |]. intros Hfnk Hmidk.
    destruct (Hkeep Hmidk) as [_ ->]. rewrite (Hfnk _ _ _ _ Hfn). done.
Qed.
End OneCall.

(** ** Claims about the observers of one call *)

Section OneCallObservers.
Context {U : Type}.
Implicit Types (w : World U) (l : loc) (e : error) (ctx : Context) (tip : string).
Import Xerr.





(** C10: [run] and [Run] add no failure of their own.  Given a non-nil
    pointer, if the closures the call invokes return normally (the
    operation, then the observers one after the other; none is invoked when
    the error variable is already set), the call returns normally. *)
Theorem step_runner_is_total ctx l tip fn mids mids' w :
  (load l w = None →
   ∃ e w1, fn ctx w = Some (e, w1) ∧
     (∃ w2, observers_return ctx e tip mids w1 w2) ∧
     (∃ w2', Internal.observers_return ctx e tip mids' w1 w2')) →
  (∃ w', outcome (run ctx (Some l) tip fn mids w) = Some w') ∧
  (∃ w', outcome (Internal.Run ctx (Some l) tip fn mids' w) = Some w').
Proof.
  intros Hcl. destruct (load l w) as [x|] eqn:Hl.
  - split; exists w.
    + by rewrite (run_skip _ _ _ _ _ _ _ Hl).
    + by rewrite (Run_skip _ _ _ _ _ _ _ Hl).
  - destruct (Hcl eq_refl) as (e & w1 & Hfn & [w2 Hret] & [w2' Hret']).
    split.
    + destruct (run_executes ctx l tip fn mids w e w1 w2 Hl Hfn Hret)
        as (curs & _ & Hrun & _).
      exists (recorded l e w2). by rewrite Hrun.
    + apply observers_return_simplify in Hret'.
      destruct (run_executes ctx l tip fn _ w e w1 w2' Hl Hfn Hret')
        as (curs & _ & Hrun & _).
      exists (recorded l e w2'). by rewrite Run_outcome, Hrun.
Qed.
End OneCallObservers.

(** ** Sequences of calls *)

Section Sequences.
Context {U : Type}.
Implicit Types (w : World U) (l : loc) (e : error) (ctx : Context) (tip : string).
Import Xerr.

Lemma fn_calls_mid_events i ctx e tip curs :
  List.filter is_fn (mid_events i ctx e tip curs) = [].
Proof.
  revert i. induction curs as [|cur curs IH]; intros i; [done |].
  rewrite mid_events_cons. simpl. apply IH.
Qed.

Lemma fn_calls_executed l (s : Step (U:=U)) e curs :
  fn_calls (executed l s e curs) = 1.
Proof.
  unfold fn_calls, executed. simpl.
  rewrite List.filter_app, fn_calls_mid_events. by destruct e.
Qed.

Lemma run_seq_skip l steps w x :
  load l w = Some x →
  run_seq (Some l) steps w = (replicate (length steps) [], Some w).
Proof.
  intros Hl. induction steps as [|s steps IH]; [done |].
  simpl. rewrite (run_skip _ _ _ _ _ _ _ Hl), IH. done.
Qed.

Lemma run_seq_app err steps1 steps2 w :
  run_seq err (steps1 ++ steps2) w
  = match run_seq err steps1 w with
    | (ts, Some w') => let '(ts', r) := run_seq err steps2 w' in (ts ++ ts', r)
    | (ts, None) => (ts, None)
    end.
Proof.
  revert w. induction steps1 as [|s steps1 IH]; intros w; simpl.
  - by destruct (run_seq err steps2 w).
  - destruct (run _ _ _ _ _ w) as [t [[[] w1]|]]; [| done].
    rewrite IH. destruct (run_seq err steps1 w1) as [ts [w2|]]; [| done].
    by destruct (run_seq err steps2 w2).
Qed.

(** Steps that succeed are all executed, and leave the variable empty. *)
Lemma run_seq_succeed l pre w w1 :
  load l w = None →
  Forall (step_keeps l) pre →
  steps_succeed pre w w1 →
  run_seq (Some l) pre w
  = ((λ s, executed l s None (replicate (length (step_mids s)) None)) <$> pre,
     Some w1) ∧
  load l w1 = None.
Proof.
  intros Hl Hkeep Hsucc. induction Hsucc as [w | s rest w wa wb wc Hfn Hret _ IH].
  - done.
  - apply Forall_cons in Hkeep as [[Hfnk Hmidk] Hkeep].
    destruct (run_executes _ l _ _ _ w _ wa wb Hl Hfn Hret)
      as (curs & Hlen & Hrun & Hcurs).
    destruct (Hcurs Hmidk) as [-> Hwb].
    rewrite (Hfnk _ _ _ _ Hfn), Hl in Hwb.
    destruct (IH Hwb Hkeep) as [IHrun IHl].
    split; [| done].
    simpl. rewrite Hrun. simpl. rewrite IHrun.
    by rewrite (Hfnk _ _ _ _ Hfn), Hl.
Qed.

(** C3: in a sequence of calls of [run] on one error variable that starts
    empty, let the operations of the steps [pre] return nil and the
    operation of the next step [s] return the error [x].  Then the steps of
    [pre] and [s] are executed, each operation called exactly once; the
    steps [post] after [s] do nothing at all, so their operations are never
    called; and the variable ends up holding [x] itself. *)
Theorem first_failure_stops_the_sequence l pre s post w w1 x w2 w3 :
  load l w = None →
  Forall (step_keeps l) pre →
  steps_succeed pre w w1 →
  step_fn s (step_ctx s) w1 = Some (Some x, w2) →
  observers_return (step_ctx s) (Some x) (step_tip s) (step_mids s) w2 w3 →
  ∃ curs ts w',
    run_seq (Some l) (pre ++ s :: post) w = (ts, Some w') ∧
    ts = ((λ p, executed l p None (replicate (length (step_mids p)) None)) <$> pre)
           ++ executed l s (Some x) curs :: replicate (length post) [] ∧
    length curs = length (step_mids s) ∧
    fn_calls <$> ts = replicate (S (length pre)) 1 ++ replicate (length post) 0 ∧
    w' = store l (Some x) w3 ∧
    load l w' = Some x.
Proof.
  intros Hl Hkeep Hsucc Hfn Hret.
  destruct (run_seq_succeed l pre w w1 Hl Hkeep Hsucc) as [Hpre Hl1].
  destruct (run_executes _ l _ _ _ w1 _ w2 w3 Hl1 Hfn Hret)
    as (curs & Hlen & Hrun & _).
  exists curs. eexists. exists (store l (Some x) w3).
  split_and!; [| reflexivity | done | | done | apply load_store_eq].
  - rewrite run_seq_app, Hpre. simpl. rewrite Hrun. simpl.
    rewrite (run_seq_skip l post _ x) by apply load_store_eq. done.
  - rewrite fmap_app, fmap_cons, fmap_replicate, fn_calls_executed.
    rewrite replicate_S_end, <-app_assoc. simpl. f_equal.
    clear. induction pre as [|p pre IH]; [done |].
    rewrite !fmap_cons, IH, fn_calls_executed. done.
Qed.
End Sequences.

(** ** The error slot is written once *)

Section WriteOnce.
Context {U : Type}.
Implicit Types (w : World U) (l : loc) (e : error) (ctx : Context) (tip : string).

(** A call on a variable that holds an error changes nothing. *)
Lemma slot_step_frozen l w w' x :
  load l w = Some x → slot_step l w w' → w' = w.
Proof.
  intros Hl Hstep.
  inversion Hstep as [ctx tip fn mids w0 w0' Hout | ctx tip fn mids w0 w0' Hout];
    subst w0 w0'.
  - rewrite (run_skip _ _ _ _ _ _ _ Hl) in Hout. by injection Hout.
  - rewrite (Run_skip _ _ _ _ _ _ _ Hl) in Hout. by injection Hout.
Qed.

Lemma slot_steps_frozen l w w' x :
  load l w = Some x → rtc (slot_step l) w w' → w' = w.
Proof.
  intros Hl Hsteps. induction Hsteps as [w | w w1 w2 Hstep _ IH]; [done |].
  apply (slot_step_frozen _ _ _ _ Hl) in Hstep as ->. by apply IH.
Qed.

(** C6: the error variable is written at most once, and one way.  Once it
    holds an error [x], no sequence of calls of the step runners changes the
    world at all, so it holds that same [x] in every state reached; and a
    single call can change what the variable reads only from nil to an
    error. *)
Theorem error_slot_is_write_once l w w' :
  (∀ x, load l w = Some x → rtc (slot_step l) w w' →
        w' = w ∧ load l w' = Some x) ∧
  (slot_step l w w' → load l w' ≠ load l w →
        load l w = None ∧ is_Some (load l w')).
Proof.
  split.
  - intros x Hl Hsteps.
    rewrite (slot_steps_frozen _ _ _ _ Hl Hsteps). done.
  - intros Hstep Hne. destruct (load l w) as [x|] eqn:Hl.
    + apply (slot_step_frozen _ _ _ _ Hl) in Hstep as ->. congruence.
    + split; [done |]. destruct (load l w'); [by eexists | done].
Qed.
End WriteOnce.

(** ** The bound runners *)

Section BoundRunner.
Context {U : Type}.
Implicit Types (w : World U) (l : loc) (e : error) (ctx : Context) (tip : string).
Local Open Scope go_scope.


(** C8: [Run] of internal/xerr and [run] are one contract.  With observer
    lists that correspond element by element, on any pointer and in any
    world, they end the same way (the same world, or both panic) and record
    the same events once the [ok] flag is forgotten (so the same decision
    to skip, the same calls in the same order with the same error and
    label, the same write); and the [ok] flag [Run] hands to an observer is
    always [e == nil] for the error [e] it hands over with it. *)
Theorem Run_and_run_are_one_contract ctx err tip fn mids mids' w :
  Forall2 corresponds mids mids' →
  outcome (Internal.Run ctx err tip fn mids' w)
  = outcome (Xerr.run ctx err tip fn mids w) ∧
  forget_ok <$> trace (Internal.Run ctx err tip fn mids' w)
  = trace (Xerr.run ctx err tip fn mids w) ∧
  Forall ok_is_nil_check (trace (Internal.Run ctx err tip fn mids' w)).
Proof.
  intros Hcorr.
  destruct (Run_run_equiv ctx err tip fn mids mids' w Hcorr) as [-> Hok].
  done.
Qed.

(** The two loggers correspond. *)
Lemma LoggerMiddleware_corresponds :
  corresponds (U:=U) Xerr.LoggerMiddleware Internal.LoggerMiddleware.
Proof.
  intros ctx e tip w. unfold Xerr.LoggerMiddleware, Internal.LoggerMiddleware.
  done.
Qed.
End BoundRunner.

(** ** The trace identifier *)

Section TraceID.
Context {U : Type}.
Implicit Types (w : World U) (ctx : Context).
Import Xerr.

Lemma Value_unbound ctx key : binds ctx key = false → Value ctx key = anyNil.
Proof.
  induction ctx as [|parent IH k v]; simpl; [done |].
  intros [Hk Hb]%orb_false_iff. apply bool_decide_eq_false in Hk.
  rewrite decide_False by done. by apply IH.
Qed.

Lemma getTraceID_unbound ctx :
  binds ctx (anyString "trace_id") = false → getTraceID ctx = "unknown".
Proof. intros Hb. unfold getTraceID. by rewrite Value_unbound. Qed.

(** C9: [getTraceID] returns the string stored under the key "trace_id"
    when the context has one; it returns "unknown" when the key is absent,
    and when what is stored under it is not a string.  So for a context
    without the key, [LoggerMiddleware] prints "unknown" where the trace
    identifier goes, on the success line and on the failure line. *)
Theorem getTraceID_or_unknown ctx :
  (∀ s, Value ctx (anyString "trace_id") = anyString s → getTraceID ctx = s) ∧
  (binds ctx (anyString "trace_id") = false → getTraceID ctx = "unknown") ∧
  ((∀ s, Value ctx (anyString "trace_id") ≠ anyString s) →
   getTraceID ctx = "unknown") ∧
  (binds ctx (anyString "trace_id") = false →
   ∀ tip w,
     LoggerMiddleware ctx None tip w
     = Some (Printf ("✅[unknown] " +:+ tip +:+ newline) w) ∧
     ∀ x, LoggerMiddleware ctx (Some x) tip w
          = Some (Printf ("❌[unknown] " +:+ tip +:+ ": " +:+ err_Error x +:+ newline) w)).
Proof.
  split_and!.
  - intros s Hv. unfold getTraceID. by rewrite Hv.
  - apply getTraceID_unbound.
  - intros Hns. unfold getTraceID.
    destruct (Value ctx (anyString "trace_id")) as [| s | n | n] eqn:Hv; try done.
    by destruct (Hns s).
  - intros Hb tip w. unfold LoggerMiddleware.
    rewrite (getTraceID_unbound _ Hb). split; [done |]. intros x. done.
Qed.
End TraceID.

(** ** The theorems at the tests' inputs *)

Section AtTheFixtures.
Import Xerr Fixtures.

Lemma ok_fn_keeps l : fn_keeps l ok_fn.
Proof. intros ctx w e w' H. by injection H as <- <-. Qed.

Lemma fail_fn_keeps l : fn_keeps l fail_fn.
Proof. intros ctx w e w' H. by injection H as <- <-. Qed.

Lemma logger_keeps l : mid_keeps l logger.
Proof. intros ctx e tip w w' H. by injection H as <-. Qed.


Lemma LoggerMiddleware_keeps {U} l : mid_keeps (U:=U) l LoggerMiddleware.
Proof.
  intros ctx e tip w w' H. unfold LoggerMiddleware in H.
  case_bool_decide; by injection H as <-.
Qed.

Lemma logger_returns ctx e tip w :
  observers_return ctx e tip [logger] w
    {| mem := mem w; stdout := stdout w;
       caller := caller w ++
         [if bool_decide (e = None) then "✅ " +:+ tip
          else "❌ " +:+ tip +:+ ": " +:+ fmt_v e] |}.
Proof. econstructor; [reflexivity | constructor]. Qed.

Lemma scenario_steps_keep : Forall (step_keeps err_p) [validate; fetch].
Proof.
  repeat constructor; simpl; auto using ok_fn_keeps, logger_keeps.
Qed.

(** TestRun_ComplexScenario, run: three notifications, "save result" never
    runs, [err] holds the error of "process data". *)
Example complex_scenario :
  run_seq (Some err_p) [validate; fetch; process; save] w0
  = ([ [EvFn ctx_req; EvMid 0 ctx_req None "validate input" None];
       [EvFn ctx_req; EvMid 0 ctx_req None "fetch data" None];
       [EvFn ctx_req;
        EvMid 0 ctx_req (Some processing_failed) "process data" None;
        EvAssign err_p processing_failed];
       [] ],
     Some {| mem := {[ err_p := Some processing_failed ]};
             stdout := "";
             caller := ["✅ validate input"; "✅ fetch data";
                        "❌ process data: processing failed"] |}).
Proof. vm_compute. reflexivity. Qed.

(** TestRun_ErrorNotWrapped: the label is not in the text of the error. *)
Example error_not_wrapped :
  let tip := "this tip should NOT wrap the error" in
  (λ w, Contains (fmt_v (load err_p w)) tip)
  <$> outcome (run Background (Some err_p) tip fail_fn [] w0)
  = Some false.
Proof. vm_compute. reflexivity. Qed.

(** A nil pointer: the call panics before anything is called. *)
Example nil_pointer_panics :
  run ctx_req None "test" ok_fn [logger] w0 = ([], None).
Proof. reflexivity. Qed.

(** Without exclusive access the variable can be set behind the runner's
    back: [sneaky_fn] returns nil, and [err] is not empty afterwards. *)
Example sneaky_fn_sets_the_variable :
  load err_p <$> outcome (run ctx_req (Some err_p) "test" sneaky_fn [] w0)
  = Some (Some first_error).
Proof. vm_compute. reflexivity. Qed.
End AtTheFixtures.

Lemma short_circuit_skips_everything_witness :
  ∃ w',
    Xerr.run Fixtures.ctx_req (Some Fixtures.err_p) "should not execute"
      Fixtures.fail_fn [Fixtures.logger] Fixtures.w_failed = ([], Some (tt, w')) ∧
    Internal.Run Fixtures.ctx_req (Some Fixtures.err_p) "should not execute"
      Fixtures.fail_fn [Internal.LoggerMiddleware] Fixtures.w_failed = ([], Some (tt, w')) ∧
    w' = Fixtures.w_failed ∧ load Fixtures.err_p w' = Some Fixtures.first_error.
Proof.
  apply (short_circuit_skips_everything Fixtures.ctx_req Fixtures.err_p
           "should not execute" Fixtures.fail_fn [Fixtures.logger]
           [Internal.LoggerMiddleware] Fixtures.w_failed Fixtures.first_error).
  reflexivity.
Defined.

Lemma run_records_the_operation_result_witness :
  load Fixtures.err_p
  <$> outcome (Xerr.run Fixtures.ctx_req (Some Fixtures.err_p) "process data"
                 Fixtures.fail_fn [Fixtures.logger] Fixtures.w0)
  = Some (Some Fixtures.processing_failed).
Proof.
  destruct (run_records_the_operation_result Fixtures.ctx_req Fixtures.err_p
              "process data" Fixtures.fail_fn [Fixtures.logger] Fixtures.w0
              (Some Fixtures.processing_failed) Fixtures.w0 _
              eq_refl eq_refl (logger_returns _ _ _ _))
    as (w' & Hout & _ & Hl & _).
  rewrite Hout. simpl. by rewrite Hl.
Defined.

Lemma first_failure_stops_the_sequence_witness :
  ∃ ts w',
    Xerr.run_seq (Some Fixtures.err_p)
      [Fixtures.validate; Fixtures.fetch; Fixtures.process; Fixtures.save]
      Fixtures.w0 = (ts, Some w') ∧
    fn_calls <$> ts = [1; 1; 1; 0] ∧
    load Fixtures.err_p w' = Some Fixtures.processing_failed.
Proof.
  edestruct (first_failure_stops_the_sequence Fixtures.err_p
               [Fixtures.validate; Fixtures.fetch] Fixtures.process
               [Fixtures.save] Fixtures.w0)
    as (curs & ts & w' & Hrun & _ & _ & Hcalls & _ & Hl).
  - reflexivity.
  - exact scenario_steps_keep.
  - eapply Xerr.steps_succeed_cons; [reflexivity | apply logger_returns |].
    eapply Xerr.steps_succeed_cons; [reflexivity | apply logger_returns |].
    apply Xerr.steps_succeed_nil.
  - reflexivity.
  - apply logger_returns.
  - exists ts, w'. split_and!; [exact Hrun | exact Hcalls | exact Hl].
Defined.



Lemma step_runner_is_total_witness :
  (∃ w', outcome (Xerr.run Fixtures.ctx_req (Some Fixtures.err_p) "test"
                    Fixtures.fail_fn [Fixtures.logger] Fixtures.w0) = Some w') ∧
  (∃ w', outcome (Internal.Run Fixtures.ctx_req (Some Fixtures.err_p) "test"
                    Fixtures.fail_fn [Internal.LoggerMiddleware] Fixtures.w0) = Some w').
Proof.
  apply (step_runner_is_total Fixtures.ctx_req Fixtures.err_p "test"
           Fixtures.fail_fn [Fixtures.logger] [Internal.LoggerMiddleware]
           Fixtures.w0).
  intros _. exists (Some Fixtures.processing_failed), Fixtures.w0.
  split; [reflexivity |]. split.
  - eexists. apply logger_returns.
  - eexists. eapply Internal.observers_return_cons;
      [reflexivity | apply Internal.observers_return_nil].
Defined.

Lemma error_slot_is_write_once_witness :
  (Fixtures.w_failed = Fixtures.w_failed ∧
   load Fixtures.err_p Fixtures.w_failed = Some Fixtures.first_error) ∧
  (load Fixtures.err_p Fixtures.w0 = None ∧
   is_Some (load Fixtures.err_p
              (store Fixtures.err_p (Some Fixtures.processing_failed) Fixtures.w0))).
Proof.
  split.
  - apply (proj1 (error_slot_is_write_once Fixtures.err_p Fixtures.w_failed
                    Fixtures.w_failed) Fixtures.first_error eq_refl).
    eapply rtc_l; [| apply rtc_once].
    + apply (slot_step_run _ Fixtures.ctx_req "save result" Fixtures.ok_fn
               [Fixtures.logger]). reflexivity.
    + apply (slot_step_Run _ Fixtures.ctx_req "save result" Fixtures.fail_fn
               [Internal.LoggerMiddleware]). reflexivity.
  - apply (proj2 (error_slot_is_write_once Fixtures.err_p Fixtures.w0
                    (store Fixtures.err_p (Some Fixtures.processing_failed)
                       Fixtures.w0))).
    + apply (slot_step_run _ Fixtures.ctx_req "process data" Fixtures.fail_fn []).
      reflexivity.
    + discriminate.
Defined.

Lemma Run_and_run_are_one_contract_witness :
  outcome (Internal.Run Fixtures.ctx_req (Some Fixtures.err_p) "process data"
             Fixtures.fail_fn [Internal.LoggerMiddleware] Fixtures.w0)
  = outcome (Xerr.run Fixtures.ctx_req (Some Fixtures.err_p) "process data"
               Fixtures.fail_fn [Xerr.LoggerMiddleware] Fixtures.w0) ∧
  forget_ok <$> trace (Internal.Run Fixtures.ctx_req (Some Fixtures.err_p)
                         "process data" Fixtures.fail_fn
                         [Internal.LoggerMiddleware] Fixtures.w0)
  = trace (Xerr.run Fixtures.ctx_req (Some Fixtures.err_p) "process data"
             Fixtures.fail_fn [Xerr.LoggerMiddleware] Fixtures.w0) ∧
  Forall ok_is_nil_check
    (trace (Internal.Run Fixtures.ctx_req (Some Fixtures.err_p) "process data"
              Fixtures.fail_fn [Internal.LoggerMiddleware] Fixtures.w0)).
Proof.
  apply (Run_and_run_are_one_contract Fixtures.ctx_req (Some Fixtures.err_p)
           "process data" Fixtures.fail_fn [Xerr.LoggerMiddleware]
           [Internal.LoggerMiddleware] Fixtures.w0).
  constructor; [apply LoggerMiddleware_corresponds | constructor].
Defined.

Lemma getTraceID_or_unknown_witness :
  Xerr.getTraceID (WithValue Background (anyString "trace_id") (anyString "abc-123"))
  = "abc-123" ∧
  Xerr.getTraceID Background = "unknown" ∧
  Xerr.getTraceID (WithValue Background (anyString "trace_id") (anyInt 123))
  = "unknown" ∧
  Xerr.LoggerMiddleware Background None "test operation" Fixtures.w0
  = Some (Printf ("✅[unknown] test operation" +:+ newline) Fixtures.w0).
Proof.
  split_and!.
  - apply (proj1 (getTraceID_or_unknown (U:=list string)
                    (WithValue Background (anyString "trace_id") (anyString "abc-123")))).
    reflexivity.
  - apply (proj1 (proj2 (getTraceID_or_unknown (U:=list string) Background))).
    reflexivity.
  - apply (proj1 (proj2 (proj2 (getTraceID_or_unknown (U:=list string)
             (WithValue Background (anyString "trace_id") (anyInt 123)))))).
    intros s. discriminate.
  - apply (proj2 (proj2 (proj2 (getTraceID_or_unknown (U:=list string) Background)))
             eq_refl "test operation" Fixtures.w0).
Defined.

(** * Further properties of the step runner *)

(** ** Closures that do not return *)

Section Panics.
Context {U : Type}.
Implicit Types (w : World U) (l : loc) (e : error) (ctx : Context) (tip : string).
Import Xerr.

Lemma range_mids_panics err i ctx e tip (pre : list middleware) mid post w w2 :
  observers_return ctx e tip pre w w2 →
  mid ctx e tip w2 = None →
  ∃ curs,
    length curs = S (length pre) ∧
    range_mids err i ctx e tip (pre ++ mid :: post) w
    = (mid_events i ctx e tip curs, None).
Proof.
  intros Hret Hmid. revert i.
  induction Hret as [w | m rest w wa wb Hm _ IH]; intros i.
  - exists [peek err w]. split; [done |].
    simpl. unfold bind, call_mid. rewrite Hmid. simpl.
    unfold mid_events. simpl. do 3 f_equal. lia.
  - destruct (IH Hmid (S i)) as (curs & Hlen & Hrun).
    exists (peek err w :: curs). split; [simpl; by rewrite Hlen |].
    rewrite mid_events_cons. simpl.
    unfold bind, call_mid. rewrite Hm. simpl. by rewrite Hrun.
Qed.

(** X1: when the operation does not return (it panics), [run] and [Run]
    do not return either, and the call of the operation is their only
    event: no observer is notified and nothing is written. *)
Theorem operation_panic_notifies_nobody ctx l tip fn mids mids' w :
  load l w = None →
  fn ctx w = None →
  run ctx (Some l) tip fn mids w = ([EvFn ctx], None) ∧
  Internal.Run ctx (Some l) tip fn mids' w = ([EvFn ctx], None).
Proof.
  intros Hl Hfn. split.
  - by apply run_fn_panics.
  - unfold Internal.Run, bind, deref, Internal.call_fn. rewrite Hl.
    rewrite bool_decide_eq_false_2 by (intros H; by apply H).
    by rewrite Hfn.
Qed.

Lemma run_observer_panics ctx l tip fn (pre : list middleware) mid post w e w1 w2 :
  load l w = None →
  fn ctx w = Some (e, w1) →
  observers_return ctx e tip pre w1 w2 →
  mid ctx e tip w2 = None →
  ∃ curs,
    length curs = S (length pre) ∧
    run ctx (Some l) tip fn (pre ++ mid :: post) w
    = (EvFn ctx :: mid_events 0 ctx e tip curs, None).
Proof.
  intros Hl Hfn Hret Hmid.
  destruct (range_mids_panics (Some l) 0 ctx e tip pre mid post w1 w2 Hret Hmid)
    as (curs & Hlen & Hrun).
  exists curs. split; [done |].
  unfold run, bind, deref, call_fn. rewrite Hl.
  rewrite bool_decide_eq_false_2 by (intros H; by apply H).
  by rewrite Hfn, Hrun.
Qed.

(** X2: when an observer does not return, the observers after it are not
    called and the assignment to the error variable is never reached: the
    trace ends with the call of that observer, so an error the operation
    returned is not recorded. *)
Theorem observer_panic_drops_the_error ctx l tip fn pre mid post w e w1 w2 :
  load l w = None →
  fn ctx w = Some (e, w1) →
  observers_return ctx e tip pre w1 w2 →
  mid ctx e tip w2 = None →
  ∃ curs,
    length curs = S (length pre) ∧
    run ctx (Some l) tip fn (pre ++ mid :: post) w
    = (EvFn ctx :: mid_events 0 ctx e tip curs, None) ∧
    List.filter is_fn (mid_events 0 ctx e tip curs) = [] ∧
    Forall (λ ev, ∀ l' x, ev ≠ EvAssign l' x)
      (EvFn ctx :: mid_events 0 ctx e tip curs).
Proof.
  intros Hl Hfn Hret Hmid.
  destruct (run_observer_panics ctx l tip fn pre mid post w e w1 w2
              Hl Hfn Hret Hmid) as (curs & Hlen & Hrun).
  exists curs. split_and!; [done | done | apply fn_calls_mid_events |].
  constructor; [done |]. clear.
  generalize 0. induction curs as [|cur curs IH]; intros i; [constructor |].
  rewrite mid_events_cons. constructor; [done | apply IH].
Qed.

(** X15: the same for [Run] of internal/xerr: when an observer does not
    return, [Run] does not return, the observers after it are not called
    and nothing is assigned. *)
Theorem Run_observer_panic_drops_the_error
    ctx l tip fn (pre : list Internal.Middleware) mid post w e w1 w2 :
  load l w = None →
  fn ctx w = Some (e, w1) →
  Internal.observers_return ctx e tip pre w1 w2 →
  mid ctx (bool_decide (e = None)) tip e w2 = None →
  ∃ curs,
    length curs = S (length pre) ∧
    outcome (Internal.Run ctx (Some l) tip fn (pre ++ mid :: post) w) = None ∧
    forget_ok <$> trace (Internal.Run ctx (Some l) tip fn (pre ++ mid :: post) w)
    = EvFn ctx :: mid_events 0 ctx e tip curs.
Proof.
  intros Hl Hfn Hret Hmid.
  apply observers_return_simplify in Hret.
  destruct (run_observer_panics ctx l tip fn (simplify <$> pre) (simplify mid)
              (simplify <$> post) w e w1 w2 Hl Hfn Hret Hmid)
    as (curs & Hlen & Hrun).
  rewrite length_fmap in Hlen. exists curs. split; [done |].
  destruct (Run_run_equiv ctx (Some l) tip fn
              (simplify <$> (pre ++ mid :: post)) (pre ++ mid :: post) w
              (Forall2_corresponds_simplify _)) as [Heq _].
  rewrite fmap_app, fmap_cons in Heq.
  pose proof (eq_trans (eq_sym Hrun) Heq) as Hboth.
  injection Hboth as Htr Hout. unfold outcome. rewrite <-Hout, <-Htr. done.
Qed.

(** X3: a nil [*error] makes [run] and [Run] panic at their first
    statement, before the operation or any observer is called, whatever
    these are. *)
Theorem nil_pointer_panics_before_any_call ctx tip fn mids mids' w :
  run ctx None tip fn mids w = ([], None) ∧
  Internal.Run ctx None tip fn mids' w = ([], None).
Proof. split; reflexivity. Qed.
End Panics.

(** ** What a call leaves alone *)

Section Frame.
Context {U : Type}.
Implicit Types (w : World U) (l : loc) (e : error) (ctx : Context) (tip : string).
Import Xerr.

(** X4: an executed call of [run] changes nothing but its own error
    variable: standard output, the caller's state and every other error
    variable are as the last observer left them. *)
Theorem run_writes_only_its_variable ctx l tip fn mids w e w1 w2 :
  load l w = None →
  fn ctx w = Some (e, w1) →
  observers_return ctx e tip mids w1 w2 →
  ∃ w',
    outcome (run ctx (Some l) tip fn mids w) = Some w' ∧
    stdout w' = stdout w2 ∧
    caller w' = caller w2 ∧
    ∀ l', l' ≠ l → load l' w' = load l' w2.
Proof.
  intros Hl Hfn Hret.
  destruct (run_executes ctx l tip fn mids w e w1 w2 Hl Hfn Hret)
    as (curs & _ & Hrun & _).
  exists (recorded l e w2). rewrite Hrun. split; [done |].
  destruct e as [x|]; simpl; [| done].
  split_and!; [done | done |]. intros l' Hne. by apply load_store_ne.
Qed.

(** X5: observers that leave the error variable alone have no say in what
    it holds after the call: it is what it would be with no observer at
    all. *)
Theorem observers_do_not_decide_the_slot ctx l tip fn mids w e w1 w2 :
  load l w = None →
  fn ctx w = Some (e, w1) →
  observers_return ctx e tip mids w1 w2 →
  Forall (mid_keeps l) mids →
  load l <$> outcome (run ctx (Some l) tip fn mids w)
  = load l <$> outcome (run ctx (Some l) tip fn [] w).
Proof.
  intros Hl Hfn Hret Hkeep.
  destruct (run_executes ctx l tip fn mids w e w1 w2 Hl Hfn Hret)
    as (curs & _ & Hrun & Hcurs).
  destruct (run_executes ctx l tip fn [] w e w1 w1 Hl Hfn
              (observers_return_nil _ _ _ _)) as (curs0 & _ & Hrun0 & _).
  rewrite Hrun, Hrun0. unfold outcome. cbn [snd fmap option_fmap option_map].
  f_equal. destruct e as [x|]; simpl.
  - by rewrite !load_store_eq.
  - by destruct (Hcurs Hkeep) as [_ ->].
Qed.
End Frame.

(** ** Sequences: the other paths *)

Section MoreSequences.
Context {U : Type}.
Implicit Types (w : World U) (l : loc) (e : error) (ctx : Context) (tip : string).
Import Xerr.
Local Open Scope go_scope.

(** X6: when every operation of a sequence succeeds (and no closure writes
    the error variable), every step is executed, each operation is called
    exactly once, and the variable is still empty at the end. *)
Theorem all_steps_run_when_none_fails l steps w w' :
  load l w = None →
  Forall (step_keeps l) steps →
  steps_succeed steps w w' →
  ∃ ts,
    run_seq (Some l) steps w = (ts, Some w') ∧
    fn_calls <$> ts = replicate (length steps) 1 ∧
    load l w' = None.
Proof.
  intros Hl Hkeep Hsucc.
  destruct (run_seq_succeed l steps w w' Hl Hkeep Hsucc) as [Hrun Hl'].
  eexists. split_and!; [exact Hrun | | exact Hl'].
  clear. induction steps as [|s steps IH]; [done |].
  rewrite !fmap_cons, IH, fn_calls_executed. done.
Qed.

(** X7: a sequence started on an error variable that already holds an
    error does nothing: every call records no event, and the world at the
    end is the world at the start. *)
Theorem sequence_on_a_failed_variable_is_skipped l (steps : list Step) w x :
  load l w = Some x →
  ∃ ts,
    run_seq (Some l) steps w = (ts, Some w) ∧
    length ts = length steps ∧
    Forall (λ t, t = []) ts.
Proof.
  intros Hl. exists (replicate (length steps) []).
  split_and!.
  - by eapply run_seq_skip.
  - apply length_replicate.
  - apply Forall_replicate. done.
Qed.

Lemma fn_calls_app t1 t2 : fn_calls (t1 ++ t2) = fn_calls t1 + fn_calls t2.
Proof. unfold fn_calls. by rewrite List.filter_app, length_app. Qed.

(** X8: the short-circuit is per error variable.  After a call on [l2]
    recorded a failure, a call on another variable [l1] that is still empty
    is executed as usual: both operations are called. *)
Theorem failure_in_one_variable_spares_another
    ctx l1 l2 tip1 tip2 fn1 fn2 mids w x w1 w2 e w3 w4 :
  l1 ≠ l2 →
  load l2 w = None →
  fn2 ctx w = Some (Some x, w1) →
  observers_return ctx (Some x) tip2 mids w1 w2 →
  load l1 w2 = None →
  fn1 ctx (store l2 (Some x) w2) = Some (e, w3) →
  observers_return ctx e tip1 mids w3 w4 →
  ∃ t,
    (run ctx (Some l2) tip2 fn2 mids;; run ctx (Some l1) tip1 fn1 mids) w
    = (t, Some (tt, recorded l1 e w4)) ∧
    fn_calls t = 2.
Proof.
  intros Hne Hl2 Hfn2 Hret2 Hl1 Hfn1 Hret1.
  destruct (run_executes ctx l2 tip2 fn2 mids w _ w1 w2 Hl2 Hfn2 Hret2)
    as (curs2 & _ & Hrun2 & _).
  assert (load l1 (store l2 (Some x) w2) = None) as Hl1'
    by (rewrite load_store_ne; done).
  destruct (run_executes ctx l1 tip1 fn1 mids _ _ w3 w4 Hl1' Hfn1 Hret1)
    as (curs1 & _ & Hrun1 & _).
  eexists. split.
  - unfold bind at 1. rewrite Hrun2. simpl recorded. rewrite Hrun1. reflexivity.
  - rewrite fn_calls_app.
    change (fn_calls (executed l2 (mkStep ctx tip2 fn2 mids) (Some x) curs2)
            + fn_calls (executed l1 (mkStep ctx tip1 fn1 mids) e curs1) = 2).
    by rewrite !fn_calls_executed.
Qed.
End MoreSequences.

(** ** Logging *)

Section Logging.
Context {U : Type}.
Implicit Types (w : World U) (l : loc) (e : error) (ctx : Context) (tip : string).
Import Xerr TestClosures.

Lemma prefix_append (a b : string) : String.prefix a (a +:+ b) = true.
Proof.
  induction a as [|c a IH]; simpl; [by destruct b |].
  destruct (Ascii.ascii_dec c c); done.
Qed.

Lemma Contains_unfold (s sub : string) :
  Contains s sub
  = String.prefix sub s ||
    match s with
    | EmptyString => false
    | String _ rest => Contains rest sub
    end.
Proof. by destruct s. Qed.

Lemma Contains_prefix (s sub : string) :
  String.prefix sub s = true → Contains s sub = true.
Proof. intros H. by rewrite Contains_unfold, H. Qed.

Lemma Contains_append_r (a s sub : string) :
  Contains s sub = true → Contains (a +:+ s) sub = true.
Proof.
  intros H. induction a as [|c a IH]; [done |].
  change (String c a +:+ s) with (String c (a +:+ s)).
  rewrite Contains_unfold, IH. apply orb_true_r.
Qed.

Lemma Contains_middle (a b c : string) : Contains (a +:+ b +:+ c) b = true.
Proof. apply Contains_append_r, Contains_prefix, prefix_append. Qed.

Lemma LoggerMiddleware_prints ctx e tip w :
  LoggerMiddleware ctx e tip w = Some (Printf (log_line ctx tip e) w).
Proof. unfold LoggerMiddleware, log_line. by case_bool_decide. Qed.

(** X9: a call of [run] observed by [LoggerMiddleware] appends exactly one
    line to standard output, after whatever the operation printed; the line
    holds the trace identifier and the label, and the text of the error when
    the operation failed.  The rest of the world is as without the
    logger. *)
Theorem logged_call_prints_one_line ctx l tip fn w e w1 :
  load l w = None →
  fn ctx w = Some (e, w1) →
  ∃ w',
    outcome (run ctx (Some l) tip fn [LoggerMiddleware] w) = Some w' ∧
    w' = recorded l e (Printf (log_line ctx tip e) w1) ∧
    stdout w' = stdout w1 +:+ log_line ctx tip e ∧
    caller w' = caller w1 ∧
    Contains (log_line ctx tip e) (getTraceID ctx) = true ∧
    Contains (log_line ctx tip e) tip = true ∧
    (∀ x, e = Some x → Contains (log_line ctx tip e) (err_Error x) = true).
Proof.
  intros Hl Hfn.
  assert (observers_return ctx e tip [LoggerMiddleware] w1
            (Printf (log_line ctx tip e) w1)) as Hret.
  { econstructor; [apply LoggerMiddleware_prints | constructor]. }
  destruct (run_executes ctx l tip fn _ w e w1 _ Hl Hfn Hret)
    as (curs & _ & Hrun & _).
  eexists. rewrite Hrun. split_and!; [reflexivity | reflexivity | | | | |].
  - by destruct e.
  - by destruct e.
  - unfold log_line. case_bool_decide; apply Contains_middle.
  - unfold log_line.
    case_bool_decide; apply Contains_append_r, Contains_append_r, Contains_middle.
  - intros x ->. unfold log_line. rewrite bool_decide_eq_false_2 by done.
    do 4 apply Contains_append_r. apply Contains_middle.
Qed.

(** X10: [LoggerMiddleware] of internal/xerr goes by its [ok] flag, not by
    the error: with [ok] true it prints the success line and drops the
    error, with [ok] false and a nil error it prints the failure line with
    the text of nil.  Under [Run], which passes [ok = (e == nil)], it
    prints what the three-argument logger prints under [run]. *)
Theorem internal_logger_goes_by_the_flag ctx tip e w :
  Internal.LoggerMiddleware ctx true tip e w = LoggerMiddleware ctx None tip w ∧
  (∀ x, Internal.LoggerMiddleware ctx false tip (Some x) w
        = LoggerMiddleware ctx (Some x) tip w) ∧
  Internal.LoggerMiddleware ctx false tip None w
  = Some (Printf ("❌[" +:+ getTraceID ctx +:+ "] " +:+ tip +:+ ": <nil>" +:+ newline) w) ∧
  (∀ err fn,
     outcome (Internal.Run ctx err tip fn [Internal.LoggerMiddleware] w)
     = outcome (run ctx err tip fn [LoggerMiddleware] w)).
Proof.
  split_and!; [done | done | done |].
  intros err fn.
  destruct (Run_run_equiv ctx err tip fn [LoggerMiddleware]
              [Internal.LoggerMiddleware] w) as [-> _]; [| done].
  constructor; [| constructor]. intros c e' t w'.
  unfold LoggerMiddleware, Internal.LoggerMiddleware. done.
Qed.
End Logging.

(** ** The observers of internal/xerr *)

Section Metrics.
Context {U : Type}.
Implicit Types (w : World U) (l : loc) (e : error) (ctx : Context) (tip : string).
Import Internal.

Lemma snd_bind {A B} (m : M U A) (k : A → M U B) w :
  snd (bind m k w)
  = match snd (m w) with
    | None => None
    | Some (a, w') => snd (k a w')
    end.
Proof.
  unfold bind. destruct (m w) as [t [[a w']|]]; [| done].
  simpl. by destruct (k a w').
Qed.

(** The index only labels the events. *)
Lemma range_mids_snd_index err i j ctx e tip (mids : list Middleware) w :
  snd (range_mids err i ctx e tip mids w) = snd (range_mids err j ctx e tip mids w).
Proof.
  revert i j w. induction mids as [|mid mids IH]; intros i j w; [done |].
  simpl. rewrite !snd_bind. unfold call_mid. simpl.
  destruct (mid ctx (bool_decide (e = None)) tip e w) as [w'|]; simpl; [| done].
  apply IH.
Qed.

Lemma range_mids_without_metrics err i ctx e tip (pre post : list Middleware) w :
  snd (range_mids err i ctx e tip (pre ++ MetricsMiddleware :: post) w)
  = snd (range_mids err i ctx e tip (pre ++ post) w).
Proof.
  revert i w. induction pre as [|mid pre IH]; intros i w.
  - simpl. rewrite snd_bind. simpl. apply range_mids_snd_index.
  - simpl. rewrite !snd_bind. unfold call_mid. simpl.
    destruct (mid ctx (bool_decide (e = None)) tip e w) as [w'|]; simpl; [| done].
    apply IH.
Qed.

(** X11: [MetricsMiddleware] is a placeholder that does nothing: put
    anywhere in the observer list of [Run], it leaves the outcome of the
    call (the final world, or the panic) as it is without it. *)
Theorem MetricsMiddleware_changes_nothing ctx err tip fn (pre post : list Middleware) w :
  outcome (Run ctx err tip fn (pre ++ MetricsMiddleware :: post) w)
  = outcome (Run ctx err tip fn (pre ++ post) w).
Proof.
  unfold outcome. f_equal. unfold Run.
  rewrite !snd_bind. destruct (snd (deref err w)) as [[cur w0]|]; [| done].
  case_bool_decide; [done |].
  rewrite !snd_bind. destruct (snd (call_fn fn ctx w0)) as [[e w1]|]; [| done].
  rewrite !snd_bind, range_mids_without_metrics. done.
Qed.
End Metrics.

(** ** Which binding [getTraceID] reads *)

Section Shadowing.
Import Xerr.

(** X12: [getTraceID] reads the innermost binding of "trace_id" only.  A
    binding of that key decides the result whatever the context below it
    holds (a non-string value there gives "unknown" even if an outer binding
    is a string), and a binding of any other key changes nothing. *)
Theorem getTraceID_reads_the_innermost_binding ctx k v :
  getTraceID (WithValue ctx (anyString "trace_id") v)
  = match v with anyString s => s | _ => "unknown" end ∧
  (k ≠ anyString "trace_id" →
   getTraceID (WithValue ctx k v) = getTraceID ctx).
Proof.
  split.
  - unfold getTraceID. cbn [Value]. rewrite decide_True by done. by destruct v.
  - intros Hk. unfold getTraceID. cbn [Value]. by rewrite decide_False.
Qed.
End Shadowing.

(** ** The tests' closures *)

Section TestsGeneralised.
Implicit Types (l : loc) (e : error) (ctx : Context) (tip : string).
Import Xerr TestClosures.

Lemma order_mids_return ctx e tip (ids : list nat) (w : World (list nat)) :
  observers_return ctx e tip (order_mid <$> ids) w
    {| mem := mem w; stdout := stdout w; caller := caller w ++ ids |}.
Proof.
  revert w. induction ids as [|n ids IH]; intros w.
  - destruct w as [m o c]. simpl. rewrite app_nil_r. constructor.
  - rewrite fmap_cons. econstructor; [reflexivity |].
    specialize (IH {| mem := mem w; stdout := stdout w; caller := caller w ++ [n] |}).
    simpl in IH. by rewrite <-app_assoc in IH.
Qed.

(** X13: the order of the observers, seen through what they do.  With
    observers that each append their own number to the caller's list,
    the list after a call of [run] is the list the operation left followed
    by the numbers in the order of the observer list. *)
Theorem observers_append_in_list_order ctx l tip fn (ids : list nat) w e w1 :
  load l w = None →
  fn ctx w = Some (e, w1) →
  caller <$> outcome (run ctx (Some l) tip fn (order_mid <$> ids) w)
  = Some (caller w1 ++ ids).
Proof.
  intros Hl Hfn.
  destruct (run_executes ctx l tip fn _ w e w1 _ Hl Hfn
              (order_mids_return ctx e tip ids w1)) as (curs & _ & Hrun & _).
  rewrite Hrun. by destruct e.
Qed.

(** X14: the log of a fail-fast workflow.  For any list of steps with given
    labels and results, run through one error variable with the tests'
    [logger], the log gains one entry per step up to and including the
    first failure and none after it, the variable ends up holding that
    first failure (nil when no step fails), and standard output is
    untouched. *)
Theorem fail_fast_log ctx l (steps : list (string * error)) (w : World (list string)) :
  load l w = None →
  ∃ ts w',
    run_seq (Some l) (logged_step ctx <$> steps) w = (ts, Some w') ∧
    length ts = length steps ∧
    caller w' = caller w ++ expected_log steps ∧
    load l w' = first_failure steps ∧
    stdout w' = stdout w.
Proof.
  revert w. induction steps as [|[tip r] steps IH]; intros w Hl.
  - exists [], w. simpl. by rewrite app_nil_r.
  - destruct (run_executes ctx l tip (returning r) [Fixtures.logger] w r w _
                Hl eq_refl (logger_returns ctx r tip w)) as (curs & _ & Hrun & _).
    rewrite fmap_cons. simpl run_seq. rewrite Hrun.
    destruct r as [x|]; simpl recorded.
    + rewrite (run_seq_skip l _ _ x) by apply load_store_eq.
      eexists _, _. split_and!; [reflexivity | | | |].
      * simpl. by rewrite length_replicate, length_fmap.
      * done.
      * apply load_store_eq.
      * done.
    + match goal with
      | |- context [run_seq _ _ ?w1] =>
          destruct (IH w1 Hl) as (ts & w' & Hseq & Hlen & Hlog & Hslot & Hout);
          rewrite Hseq
      end.
      exists (executed l (logged_step ctx (tip, None)) None curs :: ts), w'.
      split_and!; [done | simpl; by rewrite Hlen | | done | done].
      rewrite Hlog. simpl. by rewrite <-app_assoc.
Qed.
End TestsGeneralised.

(** ** The further properties at the tests' inputs *)

Lemma operation_panic_notifies_nobody_witness :
  Xerr.run Fixtures.ctx_req (Some Fixtures.err_p) "test"
    TestClosures.panicking_fn [Fixtures.logger] Fixtures.w0
  = ([EvFn Fixtures.ctx_req], None) ∧
  Internal.Run Fixtures.ctx_req (Some Fixtures.err_p) "test"
    TestClosures.panicking_fn [Internal.LoggerMiddleware] Fixtures.w0
  = ([EvFn Fixtures.ctx_req], None).
Proof.
  apply (operation_panic_notifies_nobody Fixtures.ctx_req Fixtures.err_p "test"
           TestClosures.panicking_fn [Fixtures.logger]
           [Internal.LoggerMiddleware] Fixtures.w0);
    reflexivity.
Defined.

Lemma observer_panic_drops_the_error_witness :
  ∃ curs : list error,
    length curs = 2 ∧
    Xerr.run Fixtures.ctx_req (Some Fixtures.err_p) "test" Fixtures.fail_fn
      [Fixtures.logger; TestClosures.panicking_mid; Fixtures.logger] Fixtures.w0
    = (EvFn Fixtures.ctx_req
         :: Xerr.mid_events 0 Fixtures.ctx_req (Some Fixtures.processing_failed)
              "test" curs, None).
Proof.
  edestruct (observer_panic_drops_the_error Fixtures.ctx_req Fixtures.err_p
               "test" Fixtures.fail_fn [Fixtures.logger]
               TestClosures.panicking_mid [Fixtures.logger] Fixtures.w0)
    as (curs & Hlen & Hrun & _).
  - reflexivity.
  - reflexivity.
  - apply logger_returns.
  - reflexivity.
  - exists curs. split; [exact Hlen | exact Hrun].
Defined.

Lemma Run_observer_panic_drops_the_error_witness :
  ∃ curs : list error,
    length curs = 2 ∧
    outcome (Internal.Run Fixtures.ctx_req (Some Fixtures.err_p) "test"
               Fixtures.fail_fn
               [Internal.LoggerMiddleware; (λ _ _ _ _ _, None);
                Internal.MetricsMiddleware] Fixtures.w0) = None.
Proof.
  edestruct (Run_observer_panic_drops_the_error Fixtures.ctx_req Fixtures.err_p
               "test" Fixtures.fail_fn [Internal.LoggerMiddleware]
               (λ _ _ _ _ _, None) [Internal.MetricsMiddleware] Fixtures.w0)
    as (curs & Hlen & Hout & _).
  - reflexivity.
  - reflexivity.
  - eapply Internal.observers_return_cons;
      [reflexivity | apply Internal.observers_return_nil].
  - reflexivity.
  - exists curs. split; [exact Hlen | exact Hout].
Defined.

Lemma run_writes_only_its_variable_witness :
  ∃ w',
    outcome (Xerr.run Fixtures.ctx_req (Some Fixtures.err_p) "process data"
               Fixtures.fail_fn [Fixtures.logger] Fixtures.w0) = Some w' ∧
    stdout w' = "" ∧
    caller w' = ["❌ process data: processing failed"].
Proof.
  edestruct (run_writes_only_its_variable Fixtures.ctx_req Fixtures.err_p
               "process data" Fixtures.fail_fn [Fixtures.logger] Fixtures.w0)
    as (w' & Hout & Hstdout & Hcaller & _).
  - reflexivity.
  - reflexivity.
  - apply logger_returns.
  - exists w'. split_and!; [exact Hout | exact Hstdout | exact Hcaller].
Defined.

Lemma observers_do_not_decide_the_slot_witness :
  load Fixtures.err_p
  <$> outcome (Xerr.run Fixtures.ctx_req (Some Fixtures.err_p) "process data"
                 Fixtures.fail_fn [Fixtures.logger] Fixtures.w0)
  = load Fixtures.err_p
    <$> outcome (Xerr.run Fixtures.ctx_req (Some Fixtures.err_p) "process data"
                   Fixtures.fail_fn [] Fixtures.w0).
Proof.
  eapply (observers_do_not_decide_the_slot Fixtures.ctx_req Fixtures.err_p
            "process data" Fixtures.fail_fn [Fixtures.logger] Fixtures.w0).
  - reflexivity.
  - reflexivity.
  - apply logger_returns.
  - constructor; [apply logger_keeps | constructor].
Defined.

Lemma all_steps_run_when_none_fails_witness :
  ∃ ts,
    Xerr.run_seq (Some Fixtures.err_p) [Fixtures.validate; Fixtures.fetch]
      Fixtures.w0
    = (ts, Some {| mem := ∅; stdout := "";
                   caller := ["✅ validate input"; "✅ fetch data"] |}) ∧
    fn_calls <$> ts = [1; 1] ∧
    load Fixtures.err_p
      {| mem := ∅; stdout := "";
         caller := ["✅ validate input"; "✅ fetch data"] |} = None.
Proof.
  apply (all_steps_run_when_none_fails Fixtures.err_p
           [Fixtures.validate; Fixtures.fetch] Fixtures.w0).
  - reflexivity.
  - exact scenario_steps_keep.
  - eapply Xerr.steps_succeed_cons; [reflexivity | apply logger_returns |].
    eapply Xerr.steps_succeed_cons; [reflexivity | apply logger_returns |].
    apply Xerr.steps_succeed_nil.
Defined.

Lemma sequence_on_a_failed_variable_is_skipped_witness :
  ∃ ts,
    Xerr.run_seq (Some Fixtures.err_p)
      [Fixtures.validate; Fixtures.fetch; Fixtures.process; Fixtures.save]
      Fixtures.w_failed = (ts, Some Fixtures.w_failed) ∧
    length ts = 4 ∧
    Forall (λ t, t = []) ts.
Proof.
  apply (sequence_on_a_failed_variable_is_skipped Fixtures.err_p
           [Fixtures.validate; Fixtures.fetch; Fixtures.process; Fixtures.save]
           Fixtures.w_failed Fixtures.first_error).
  reflexivity.
Defined.

Lemma failure_in_one_variable_spares_another_witness :
  ∃ t w',
    bind (Xerr.run Fixtures.ctx_req (Some Fixtures.err_p) "operation 2"
            Fixtures.fail_fn [Fixtures.logger])
         (λ _, Xerr.run Fixtures.ctx_req (Some 2%positive) "operation 1"
                 Fixtures.ok_fn [Fixtures.logger]) Fixtures.w0
    = (t, Some (tt, w')) ∧
    fn_calls t = 2.
Proof.
  edestruct (failure_in_one_variable_spares_another Fixtures.ctx_req
               2%positive Fixtures.err_p "operation 1" "operation 2"
               Fixtures.ok_fn Fixtures.fail_fn [Fixtures.logger] Fixtures.w0)
    as (t & Hrun & Hcalls).
  - discriminate.
  - reflexivity.
  - reflexivity.
  - apply logger_returns.
  - reflexivity.
  - reflexivity.
  - apply logger_returns.
  - exists t. eexists. split; [exact Hrun | exact Hcalls].
Defined.

Lemma logged_call_prints_one_line_witness :
  ∃ w',
    outcome (Xerr.run Fixtures.ctx_req (Some Fixtures.err_p) "process data"
               Fixtures.fail_fn [Xerr.LoggerMiddleware] Fixtures.w0) = Some w' ∧
    stdout w' = "❌[request-123] process data: processing failed" +:+ newline.
Proof.
  edestruct (logged_call_prints_one_line Fixtures.ctx_req Fixtures.err_p
               "process data" Fixtures.fail_fn Fixtures.w0)
    as (w' & Hout & _ & Hstdout & _).
  - reflexivity.
  - reflexivity.
  - exists w'. split; [exact Hout | exact Hstdout].
Defined.

Lemma observers_append_in_list_order_witness :
  caller
  <$> outcome (Xerr.run Background (Some Fixtures.err_p) "test"
                 (TestClosures.returning None)
                 (TestClosures.order_mid <$> [1; 2; 3]) TestClosures.w_order)
  = Some [1; 2; 3].
Proof.
  apply (observers_append_in_list_order Background Fixtures.err_p "test"
           (TestClosures.returning None) [1; 2; 3] TestClosures.w_order
           None TestClosures.w_order);
    reflexivity.
Defined.

Lemma fail_fast_log_witness :
  ∃ ts w',
    Xerr.run_seq (Some Fixtures.err_p)
      (TestClosures.logged_step Fixtures.ctx_req
       <$> [("validate input", None); ("fetch data", None);
            ("process data", Some Fixtures.processing_failed);
            ("save result", None)]) Fixtures.w0 = (ts, Some w') ∧
    length ts = 4 ∧
    caller w' = ["✅ validate input"; "✅ fetch data";
                 "❌ process data: processing failed"] ∧
    load Fixtures.err_p w' = Some Fixtures.processing_failed ∧
    stdout w' = "".
Proof.
  apply (fail_fast_log Fixtures.ctx_req Fixtures.err_p
           [("validate input", None); ("fetch data", None);
            ("process data", Some Fixtures.processing_failed);
            ("save result", None)] Fixtures.w0).
  reflexivity.
Defined.
